(** * Tsugix example script [example/buggy.py]: the average calculator

    The script is one function, [calculate_average], and an entry point
    [main] that calls it on a hard-coded empty list and prints the result.

    The embedding follows the Python semantics of the two operators the
    script uses, [+] and [/], on the two numeric types a "sequence of
    numbers" holds: [int] (unbounded, [Z]) and [float] (IEEE 754 binary64,
    the standard library's executable [spec_float] at precision 53 and
    maximal exponent 1024).  Exceptions are values; the interpreter state
    (the heap of list objects and the text written to standard output) is
    threaded explicitly. *)

From Stdlib Require Import ZArith List String Bool Lia Permutation QArith.
From Stdlib Require Import QArith.Qpower QArith.Qabs.
From Stdlib Require Import Floats.SpecFloat.
Import ListNotations.

Local Open Scope string_scope.
Local Open Scope list_scope.
Local Open Scope Z_scope.

(** ** Python numbers *)

Module Binary64.

Definition prec : Z := 53.
Definition emax : Z := 1024.

Definition add : spec_float -> spec_float -> spec_float := SFadd prec emax.
Definition div : spec_float -> spec_float -> spec_float := SFdiv prec emax.

(** Nearest binary64 (ties to even) of the integer [z]; an infinity when
    [z] is out of range. *)
Definition of_Z (z : Z) : spec_float := binary_normalize prec emax z 0 false.

(** Nearest binary64 (ties to even) of the quotient [a / b] of two
    integers, [a <> 0] and [b <> 0], with the sign [s]: the division core
    of [SFdiv] run on the integers themselves. *)
Definition div_Z (s : bool) (a b : Z) : spec_float :=
  let '(q, e, l) := SFdiv_core_binary prec emax (Z.abs a) 0 (Z.abs b) 0 in
  binary_round_aux prec emax s q e l.

Definition is_zero (f : spec_float) : bool :=
  match f with S754_zero _ => true | _ => false end.

Definition is_infinity (f : spec_float) : bool :=
  match f with S754_infinity _ => true | _ => false end.

(** The rational a finite float denotes. *)
Definition to_Q (f : spec_float) : option Q :=
  match f with
  | S754_zero _ => Some 0%Q
  | S754_finite s m e =>
      let v := (inject_Z (Z.pos m) * Qpower 2 e)%Q in
      Some (if s then Qopp v else v)
  | _ => None
  end.

End Binary64.

Inductive num : Type :=
| PInt (z : Z)
| PFloat (f : spec_float).

(** The two exceptions the arithmetic of the script can raise. *)
Inductive exc : Type :=
| ZeroDivisionError
| OverflowError.

(** Result of evaluating an expression. *)
Inductive result (A : Type) : Type :=
| Ok (a : A)
| Err (e : exc).
Arguments Ok {A} a.
Arguments Err {A} e.

Definition rbind {A B} (r : result A) (k : A -> result B) : result B :=
  match r with
  | Ok a => k a
  | Err e => Err e
  end.

(** [float(z)]: "int too large to convert to float" when the nearest
    binary64 would be an infinity. *)
Definition int_to_float (z : Z) : result spec_float :=
  let f := Binary64.of_Z z in
  if Binary64.is_infinity f then Err OverflowError else Ok f.

Definition as_float (x : num) : result spec_float :=
  match x with
  | PInt z => int_to_float z
  | PFloat f => Ok f
  end.

(** [x + y].  Two ints add exactly; otherwise both operands are taken to
    float and added in binary64 (a float sum never raises: it saturates to
    an infinity or gives a nan). *)
Definition py_add (x y : num) : result num :=
  match x, y with
  | PInt a, PInt b => Ok (PInt (a + b))
  | _, _ =>
      rbind (as_float x) (fun fx =>
      rbind (as_float y) (fun fy =>
      Ok (PFloat (Binary64.add fx fy))))
  end.

(** [a / b] on two ints: the correctly rounded quotient, a float even when
    [b] divides [a]; "division by zero" when [b = 0]; "integer division
    result too large for a float" when the quotient rounds out of range. *)
Definition int_truediv (a b : Z) : result num :=
  if b =? 0 then Err ZeroDivisionError
  else
    let s := xorb (a <? 0) (b <? 0) in
    if a =? 0 then Ok (PFloat (S754_zero s))
    else
      let f := Binary64.div_Z s a b in
      if Binary64.is_infinity f then Err OverflowError else Ok (PFloat f).

(** [x / y] on floats: raises on a zero divisor instead of giving an
    infinity or a nan. *)
Definition float_truediv (fx fy : spec_float) : result num :=
  if Binary64.is_zero fy then Err ZeroDivisionError
  else Ok (PFloat (Binary64.div fx fy)).

(** [x / y], true division. *)
Definition py_truediv (x y : num) : result num :=
  match x, y with
  | PInt a, PInt b => int_truediv a b
  | _, _ =>
      rbind (as_float x) (fun fx =>
      rbind (as_float y) (fun fy =>
      float_truediv fx fy))
  end.

(** ** The interpreter state and the exception monad *)

(** A list object lives in the heap and is passed by reference, so the
    callee's [numbers] and the caller's [data] name the same object. *)
Definition ref : Type := nat.

Record world : Type := mkWorld {
  heap : list (list num);
  stdout : string
}.

Definition empty_world : world := mkWorld [] EmptyString.

(** What a call does: return a value, or raise an exception; [line] is the
    line of the source the traceback ends at. *)
Inductive outcome (A : Type) : Type :=
| Return (a : A)
| Raise (e : exc) (line : nat).
Arguments Return {A} a.
Arguments Raise {A} e line.

Definition M (A : Type) : Type := world -> outcome A * world.

Definition ret {A} (a : A) : M A := fun w => (Return a, w).

Definition bind {A B} (c : M A) (k : A -> M B) : M B :=
  fun w =>
    match c w with
    | (Return a, w') => k a w'
    | (Raise e line, w') => (Raise e line, w')
    end.

Declare Scope py_scope.
Delimit Scope py_scope with py.
Notation "x <- c ;; k" := (bind c (fun x => k))
  (at level 100, c at next level, right associativity) : py_scope.
Local Open Scope py_scope.

(** An expression evaluated on source line [line]. *)
Definition at_line {A} (line : nat) (r : result A) : M A :=
  fun w =>
    match r with
    | Ok a => (Return a, w)
    | Err e => (Raise e line, w)
    end.

(** A list display [[...]]: a fresh object. *)
Definition new_list (items : list num) : M ref :=
  fun w => (Return (List.length (heap w)), mkWorld (heap w ++ [items]) (stdout w)).

Definition list_at (w : world) (r : ref) : list num := nth r (heap w) [].

Definition get_list (r : ref) : M (list num) :=
  fun w => (Return (list_at w r), w).

(** [len(seq)] *)
Definition len (seq : ref) : M num :=
  items <- get_list seq ;;
  ret (PInt (Z.of_nat (List.length items))).

Fixpoint for_each {A} (items : list num) (body : A -> num -> M A) (acc : A)
  : M A :=
  match items with
  | [] => ret acc
  | x :: rest => acc' <- body acc x ;; for_each rest body acc'
  end.

(** [for x in seq: body], the variables the body assigns threaded as [acc].
    The elements are those of the object when the loop starts. *)
Definition for_in {A} (seq : ref) (body : A -> num -> M A) (acc : A) : M A :=
  items <- get_list seq ;;
  for_each items body acc.

Definition newline : string := String (Ascii.ascii_of_nat 10) EmptyString.

(** [print(s)] *)
Definition print (s : string) : M unit :=
  fun w => (Return tt, mkWorld (heap w) (stdout w ++ s ++ newline)%string).

(** ** The script *)

(** <<
    def calculate_average(numbers):
        total = 0
        for num in numbers:
            total += num
        return total / len(numbers)
    >> *)
Definition calculate_average (numbers : ref) : M num :=
  let total := PInt 0 in
  total <- for_in numbers (fun total num => at_line 5 (py_add total num)) total ;;
  n <- len numbers ;;
  at_line 6 (py_truediv total n).

(** A process: what the operating system sees of a run. *)
Record process : Type := mkProcess {
  exit_status : Z;
  written : string;
  traceback : option (exc * nat)
}.

(** The interpreter running a program from a fresh state: an exception that
    reaches the top level is reported and the status is 1. *)
Definition run (prog : M unit) : process :=
  match prog empty_world with
  | (Return _, w) => mkProcess 0 (stdout w) None
  | (Raise e line, w) => mkProcess 1 (stdout w) (Some (e, line))
  end.

(** [calculate_average(S)] called on a fresh list object holding [S]. *)
Definition average (S : list num) : outcome num :=
  fst ((data <- new_list S ;; calculate_average data) empty_world).

Section Script.

(** [str(x)], the rendering a replacement field of an f-string uses; the
    script is independent of how floats are printed. *)
Variable py_str : num -> string.

(** The body of [main] with the list display of its first statement as
    a parameter:
    <<
        data = <display>
        result = calculate_average(data)
        print(f"Average: {result}")
    >> *)
Definition main_on (display : list num) : M unit :=
  data <- new_list display ;;
  result <- calculate_average data ;;
  print ("Average: " ++ py_str result)%string.

(** <<
    def main():
        data = []
        ...
    >> *)
Definition main : M unit := main_on [].

(** <<
    if __name__ == "__main__":
        main()
    >> *)
Definition script (name : string) : M unit :=
  if String.eqb name "__main__" then main else ret tt.

Definition program : process := run (script "__main__").

End Script.

(** ** What the loop and the call compute *)

(** The value of [total] after the loop has run over [items]. *)
Fixpoint sum_from (total : num) (items : list num) : result num :=
  match items with
  | [] => Ok total
  | x :: rest => rbind (py_add total x) (fun total' => sum_from total' rest)
  end.

(** The outcome of the call in terms of the list alone. *)
Definition average_outcome (S : list num) : outcome num :=
  match sum_from (PInt 0) S with
  | Err e => Raise e 5
  | Ok total =>
      match py_truediv total (PInt (Z.of_nat (List.length S))) with
      | Err e => Raise e 6
      | Ok v => Return v
      end
  end.

(** ** The specification's mean *)

(** The rational a number denotes (none for an infinity or a nan). *)
Definition num_value (x : num) : option Q :=
  match x with
  | PInt z => Some (inject_Z z)
  | PFloat f => Binary64.to_Q f
  end.

(** The specification's [sum(S)]: the sum of the elements as rationals,
    exact, whatever their order. *)
Fixpoint exact_sum (S : list num) : option Q :=
  match S with
  | [] => Some 0%Q
  | x :: rest =>
      match num_value x, exact_sum rest with
      | Some v, Some t => Some (v + t)%Q
      | _, _ => None
      end
  end.





(** ** Vocabulary of the statements *)

Definition Zsum (zs : list Z) : Z := fold_right Z.add 0 zs.

(** The integers of a sequence are below [bound] in magnitude. *)
Definition int_below (bound : Z) (x : num) : bool :=
  match x with
  | PInt z => Z.abs z <? bound
  | PFloat _ => true
  end.

(** The running total stays within [k] times [2 ^ 960] while it is an int. *)
Definition total_within (k : Z) (total : num) : Prop :=
  match total with
  | PInt a => Z.abs a <= k * 2 ^ 960
  | PFloat _ => True
  end.

(** Float literals used below. *)
Definition float_1_0 : spec_float := S754_finite false 4503599627370496 (-52).
Definition float_1_5 : spec_float := S754_finite false 6755399441055744 (-52).
Definition float_4_0 : spec_float := S754_finite false 4503599627370496 (-50).
Definition float_2p53 : spec_float := S754_finite false 4503599627370496 1.
Definition float_neg_2p53 : spec_float := S754_finite true 4503599627370496 1.

(** The binary64 that holds the integer [q], for [q] of at most 53 bits:
    the bits of [q] moved up to fill the 53-bit mantissa. *)
Definition float_of_small_int (q : Z) : spec_float :=
  match q with
  | 0 => S754_zero false
  | _ =>
      S754_finite (q <? 0)
        (Z.to_pos (Z.abs q * 2 ^ (53 - Zdigits2 (Z.abs q))))
        (Zdigits2 (Z.abs q) - 53)
  end.




(** ** Facts about rounding to binary64 *)

Module Binary64Facts.
Import Binary64.

Lemma fexp_eq (x : Z) : fexp prec emax x = Z.max (x - 53) (-1074).
Proof. reflexivity. Qed.

(** [digits2_pos p] is the bit length of [p]. *)
Lemma digits2_pos_bounds (p : positive) :
  2 ^ (Z.pos (digits2_pos p) - 1) <= Z.pos p < 2 ^ Z.pos (digits2_pos p).
Proof.
  induction p as [p IH | p IH | ]; cbn [digits2_pos].
  - rewrite Pos2Z.inj_succ.
    replace (Z.succ (Z.pos (digits2_pos p)) - 1) with (Z.succ (Z.pos (digits2_pos p) - 1)) by lia.
    rewrite !Z.pow_succ_r by lia. lia.
  - rewrite Pos2Z.inj_succ.
    replace (Z.succ (Z.pos (digits2_pos p)) - 1) with (Z.succ (Z.pos (digits2_pos p) - 1)) by lia.
    rewrite !Z.pow_succ_r by lia. lia.
  - cbn. lia.
Qed.

Lemma Zdigits2_nonneg (m : Z) : 0 <= Zdigits2 m.
Proof. destruct m; cbn; lia. Qed.

Lemma Zdigits2_pos (m : Z) : 0 < m -> 0 < Zdigits2 m.
Proof. destruct m; cbn; lia. Qed.

Lemma Zdigits2_bounds (m : Z) :
  0 < m -> 2 ^ (Zdigits2 m - 1) <= m < 2 ^ Zdigits2 m.
Proof.
  destruct m as [ | p | p]; try lia. intros _. apply digits2_pos_bounds.
Qed.

(** A mantissa below [2 ^ k] has at most [k] bits. *)
Lemma Zdigits2_le (m k : Z) : 0 <= m -> 0 <= k -> m < 2 ^ k -> Zdigits2 m <= k.
Proof.
  intros Hm Hk Hlt.
  destruct (Z.eq_dec m 0) as [-> | Hnz]; [cbn; lia | ].
  assert (Hb := Zdigits2_bounds m ltac:(lia)).
  assert (Hd := Zdigits2_pos m ltac:(lia)).
  assert (2 ^ (Zdigits2 m - 1) < 2 ^ k) as Hp by lia.
  apply Z.pow_lt_mono_r_iff in Hp; lia.
Qed.

Lemma shr_1_m (mrs : shr_record) :
  0 <= shr_m mrs -> shr_m (shr_1 mrs) = shr_m mrs / 2.
Proof.
  destruct mrs as [m r s]; cbn [shr_m]; intros Hm.
  destruct m as [ | [p | p | ] | p]; cbn [shr_1 shr_m]; try lia.
  - reflexivity.
  - rewrite Pos2Z.inj_xI. apply Z.div_unique with (r := 1); lia.
  - rewrite Pos2Z.inj_xO. apply Z.div_unique with (r := 0); lia.
  - reflexivity.
Qed.

(** Shifting right by [p] bits divides the mantissa by [2 ^ p]. *)
Lemma iter_shr_1_m (p : positive) :
  forall mrs, 0 <= shr_m mrs ->
    shr_m (iter_pos shr_1 p mrs) = shr_m mrs / 2 ^ Z.pos p.
Proof.
  induction p as [p IH | p IH | ]; intros mrs Hm; cbn [iter_pos].
  - assert (H1 : 0 <= shr_m (shr_1 mrs)).
    { rewrite shr_1_m by assumption. apply Z.div_pos; lia. }
    assert (H2 : 0 <= shr_m (iter_pos shr_1 p (shr_1 mrs))).
    { rewrite IH by assumption. apply Z.div_pos; [assumption | apply Z.pow_pos_nonneg; lia]. }
    rewrite IH by assumption. rewrite IH by assumption.
    rewrite shr_1_m by assumption.
    rewrite !Z.div_div by (try apply Z.pow_pos_nonneg; lia).
    f_equal. transitivity (2 ^ (1 + Z.pos p + Z.pos p)); [ | f_equal; lia].
    rewrite !Z.pow_add_r by lia. lia.
  - assert (H2 : 0 <= shr_m (iter_pos shr_1 p mrs)).
    { rewrite IH by assumption. apply Z.div_pos; [assumption | apply Z.pow_pos_nonneg; lia]. }
    rewrite IH by assumption. rewrite IH by assumption.
    rewrite !Z.div_div by (try apply Z.pow_pos_nonneg; lia).
    f_equal. transitivity (2 ^ (Z.pos p + Z.pos p)); [ | f_equal; lia].
    rewrite !Z.pow_add_r by lia. lia.
  - rewrite shr_1_m by assumption. reflexivity.
Qed.

Lemma shr_record_of_loc_m (m : Z) (l : location) :
  shr_m (shr_record_of_loc m l) = m.
Proof. destruct l as [ | [ | | ]]; reflexivity. Qed.

Lemma round_nearest_even_bounds (m : Z) (l : location) :
  m <= round_nearest_even m l <= m + 1.
Proof.
  destruct l as [ | [ | | ]]; cbn [round_nearest_even]; try lia.
  destruct (Z.even m); lia.
Qed.

(** One right shift to the format's exponent: the mantissa stays
    non-negative, and neither the exponent nor the magnitude grows past
    what the format asks for. *)
Lemma shr_fexp_upper (m e : Z) (l : location) (mrs : shr_record) (e2 : Z) :
  0 <= m ->
  shr_fexp prec emax m e l = (mrs, e2) ->
  0 <= shr_m mrs
  /\ e2 <= Z.max e (Z.max (Zdigits2 m + e - 53) (-1074))
  /\ Zdigits2 (shr_m mrs) + e2 <= Z.max (Zdigits2 m + e) e2.
Proof.
  intros Hm. unfold shr_fexp, shr. rewrite fexp_eq.
  assert (Hd := Zdigits2_nonneg m).
  destruct (Z.max (Zdigits2 m + e - 53) (-1074) - e) as [ | p | p] eqn:Hk;
    intros [= <- <-]; rewrite ?shr_record_of_loc_m; try (repeat split; lia).
  rewrite iter_shr_1_m by (rewrite shr_record_of_loc_m; assumption).
  rewrite shr_record_of_loc_m.
  assert (Hpow : 0 < 2 ^ Z.pos p) by (apply Z.pow_pos_nonneg; lia).
  split; [apply Z.div_pos; lia | ]. split; [lia | ].
  destruct (Z.eq_dec m 0) as [-> | Hnz].
  { rewrite Z.div_0_l by lia. cbn [Zdigits2]. lia. }
  assert (Hb := Zdigits2_bounds m ltac:(lia)).
  destruct (Z_le_gt_dec (Z.pos p) (Zdigits2 m)) as [Hle | Hgt].
  - assert (m / 2 ^ Z.pos p < 2 ^ (Zdigits2 m - Z.pos p)) as Hq.
    { apply Z.div_lt_upper_bound; [assumption | ].
      rewrite <- Z.pow_add_r by lia.
      replace (Z.pos p + (Zdigits2 m - Z.pos p)) with (Zdigits2 m) by lia. lia. }
    apply Zdigits2_le in Hq; [lia | apply Z.div_pos; lia | lia].
  - rewrite Z.div_small.
    + cbn [Zdigits2]. lia.
    + split; [lia | ].
      apply Z.lt_le_trans with (2 ^ Zdigits2 m); [lia | ].
      apply Z.pow_le_mono_r; lia.
Qed.

(** The same shift keeps a positive mantissa positive unless the value is
    below the smallest subnormal. *)
Lemma shr_fexp_lower (m e : Z) (l : location) (mrs : shr_record) (e2 : Z) :
  0 < m ->
  -1074 < Zdigits2 m + e ->
  shr_fexp prec emax m e l = (mrs, e2) ->
  0 < shr_m mrs /\ -1074 <= e2.
Proof.
  intros Hm Hlow. unfold shr_fexp, shr. rewrite fexp_eq.
  destruct (Z.max (Zdigits2 m + e - 53) (-1074) - e) as [ | p | p] eqn:Hk;
    intros [= <- <-]; rewrite ?shr_record_of_loc_m; try lia.
  rewrite iter_shr_1_m by (rewrite shr_record_of_loc_m; lia).
  rewrite shr_record_of_loc_m.
  assert (Hb := Zdigits2_bounds m Hm).
  split; [ | lia].
  apply Z.div_str_pos. split; [apply Z.pow_pos_nonneg; lia | ].
  apply Z.le_trans with (2 ^ (Zdigits2 m - 1)); [ | lia].
  apply Z.pow_le_mono_r; lia.
Qed.

(** Rounding a mantissa and exponent whose value is below [2 ^ 1023]
    gives no infinity. *)
Lemma binary_round_aux_not_infinity (s : bool) (mx ex : Z) (lx : location) :
  0 <= mx -> ex <= 971 -> Zdigits2 mx + ex <= 1023 ->
  is_infinity (binary_round_aux prec emax s mx ex lx) = false.
Proof.
  intros Hm He Hd. unfold binary_round_aux.
  destruct (shr_fexp prec emax mx ex lx) as [mrs1 e1] eqn:E1.
  destruct (shr_fexp_upper _ _ _ _ _ Hm E1) as (Hm1 & He1 & Hd1).
  set (m1 := round_nearest_even (shr_m mrs1) (loc_of_shr_record mrs1)).
  assert (Hr := round_nearest_even_bounds (shr_m mrs1) (loc_of_shr_record mrs1)).
  fold m1 in Hr.
  assert (Hd2 : Zdigits2 m1 <= Zdigits2 (shr_m mrs1) + 1).
  { apply Zdigits2_le; [lia | pose proof (Zdigits2_nonneg (shr_m mrs1)); lia | ].
    rewrite Z.pow_add_r by (try apply Zdigits2_nonneg; lia).
    destruct (Z.eq_dec (shr_m mrs1) 0) as [E0 | Hnz].
    - rewrite E0 in *. cbn. lia.
    - pose proof (Zdigits2_bounds (shr_m mrs1) ltac:(lia)). lia. }
  destruct (shr_fexp prec emax m1 e1 loc_Exact) as [mrs2 e2] eqn:E2.
  assert (Hm1' : 0 <= m1) by lia.
  destruct (shr_fexp_upper _ _ _ _ _ Hm1' E2) as (Hm2 & He2 & _).
  destruct (shr_m mrs2); try reflexivity.
  replace (emax - prec) with 971 by reflexivity.
  destruct (Z.leb_spec e2 971); [reflexivity | lia].
Qed.

(** Rounding a positive mantissa whose value is at least the smallest
    subnormal gives no zero. *)
Lemma binary_round_aux_not_zero (s : bool) (mx ex : Z) (lx : location) :
  0 < mx -> -1074 < Zdigits2 mx + ex ->
  is_zero (binary_round_aux prec emax s mx ex lx) = false.
Proof.
  intros Hm Hlow. unfold binary_round_aux.
  destruct (shr_fexp prec emax mx ex lx) as [mrs1 e1] eqn:E1.
  destruct (shr_fexp_lower _ _ _ _ _ Hm Hlow E1) as (Hm1 & He1).
  set (m1 := round_nearest_even (shr_m mrs1) (loc_of_shr_record mrs1)).
  assert (Hr := round_nearest_even_bounds (shr_m mrs1) (loc_of_shr_record mrs1)).
  fold m1 in Hr.
  assert (Hd1 := Zdigits2_pos m1 ltac:(lia)).
  destruct (shr_fexp prec emax m1 e1 loc_Exact) as [mrs2 e2] eqn:E2.
  assert (Hm1' : 0 < m1) by lia.
  assert (Hlow' : -1074 < Zdigits2 m1 + e1) by lia.
  destruct (shr_fexp_lower _ _ _ _ _ Hm1' Hlow' E2) as (Hm2 & _).
  destruct (shr_m mrs2); try lia.
  destruct (e2 <=? emax - prec); reflexivity.
Qed.

Lemma digits2_pos_iter_xO (p d : positive) :
  Z.pos (digits2_pos (Pos.iter xO p d)) = Z.pos (digits2_pos p) + Z.pos d.
Proof.
  induction d as [ | d IH] using Pos.peano_ind.
  - cbn [Pos.iter digits2_pos]. lia.
  - rewrite Pos.iter_succ. cbn [digits2_pos]. lia.
Qed.

(** Aligning to a smaller exponent keeps the value's magnitude. *)
Lemma shl_align_digits (p : positive) (e e' : Z) (mz : positive) (ez : Z) :
  shl_align p e e' = (mz, ez) ->
  ez <= e /\ Z.pos (digits2_pos mz) + ez = Z.pos (digits2_pos p) + e.
Proof.
  unfold shl_align.
  destruct (e' - e) as [ | d | d] eqn:Hd; intros [= <- <-]; try lia.
  rewrite digits2_pos_iter_xO. lia.
Qed.

Lemma binary_round_not_infinity (s : bool) (p : positive) :
  Z.pos p < 2 ^ 1023 ->
  is_infinity (binary_round prec emax s p 0) = false.
Proof.
  intros Hp. unfold binary_round.
  destruct (shl_align p 0 (fexp prec emax (Z.pos (digits2_pos p) + 0)))
    as [mz ez] eqn:E.
  destruct (shl_align_digits _ _ _ _ _ E) as (Hez & Hdz).
  assert (Hd : Zdigits2 (Z.pos p) <= 1023) by (apply Zdigits2_le; lia).
  cbn [Zdigits2] in Hd.
  apply binary_round_aux_not_infinity; cbn [Zdigits2]; lia.
Qed.

Lemma binary_round_not_zero (s : bool) (p : positive) :
  is_zero (binary_round prec emax s p 0) = false.
Proof.
  unfold binary_round.
  destruct (shl_align p 0 (fexp prec emax (Z.pos (digits2_pos p) + 0)))
    as [mz ez] eqn:E.
  destruct (shl_align_digits _ _ _ _ _ E) as (Hez & Hdz).
  apply binary_round_aux_not_zero; cbn [Zdigits2]; lia.
Qed.

(** An integer below [2 ^ 1023] in magnitude converts to a finite float. *)
Lemma of_Z_not_infinity (z : Z) :
  Z.abs z < 2 ^ 1023 -> is_infinity (of_Z z) = false.
Proof.
  destruct z as [ | p | p]; intros Hz; cbn [of_Z binary_normalize].
  - reflexivity.
  - apply binary_round_not_infinity. exact Hz.
  - apply binary_round_not_infinity. exact Hz.
Qed.

(** A non-zero integer never converts to a zero. *)
Lemma of_Z_not_zero (z : Z) : z <> 0 -> is_zero (of_Z z) = false.
Proof.
  destruct z as [ | p | p]; intros Hz; cbn [of_Z binary_normalize].
  - contradiction.
  - apply binary_round_not_zero.
  - apply binary_round_not_zero.
Qed.

(** The rounded quotient of an integer below [2 ^ 1023] in magnitude by a
    non-zero integer is no infinity. *)
Lemma div_Z_not_infinity (s : bool) (a b : Z) :
  b <> 0 -> Z.abs a < 2 ^ 1023 -> is_infinity (div_Z s a b) = false.
Proof.
  intros Hb Ha. unfold div_Z, SFdiv_core_binary. rewrite fexp_eq.
  set (d1 := Zdigits2 (Z.abs a)). set (d2 := Zdigits2 (Z.abs b)).
  set (e' := Z.min (Z.max (d1 + 0 - (d2 + 0) - 53) (-1074)) (0 - 0)).
  assert (Hd1 : d1 <= 1023) by (apply Zdigits2_le; lia).
  assert (Hd1' : 0 <= d1) by apply Zdigits2_nonneg.
  set (m' := match 0 - 0 - e' with
             | 0 => Z.abs a
             | Z.pos _ => Z.shiftl (Z.abs a) (0 - 0 - e')
             | Z.neg _ => 0
             end).
  assert (Hm' : 0 <= m' < 2 ^ (d1 - e')).
  { assert (Hlt : Z.abs a < 2 ^ d1).
    { destruct (Z.eq_dec (Z.abs a) 0) as [E0 | Hnz].
      - rewrite E0. apply Z.pow_pos_nonneg; lia.
      - apply Zdigits2_bounds. lia. }
    subst m'. destruct (0 - 0 - e') as [ | k | k] eqn:Hk.
    - replace (d1 - e') with d1 by lia. lia.
    - rewrite Z.shiftl_mul_pow2 by lia.
      replace (d1 - e') with (d1 + Z.pos k) by lia.
      rewrite Z.pow_add_r by lia.
      assert (0 < 2 ^ Z.pos k) by (apply Z.pow_pos_nonneg; lia). nia.
    - split; [lia | apply Z.pow_pos_nonneg; lia]. }
  assert (Hdiv := Z_div_mod m' (Z.abs b) ltac:(lia)).
  destruct (Z.div_eucl m' (Z.abs b)) as [q r].
  destruct Hdiv as (Hq & Hr).
  assert (Hq0 : 0 <= q <= m') by nia.
  apply binary_round_aux_not_infinity; [lia | lia | ].
  assert (Zdigits2 q <= d1 - e'); [ | lia].
  apply Zdigits2_le; lia.
Qed.

End Binary64Facts.

(** ** The call, in terms of the list *)

Section Denotation.

Lemma for_each_sum (items : list num) :
  forall (total : num) (w : world),
    for_each items (fun total num => at_line 5 (py_add total num)) total w
    = (match sum_from total items with
       | Ok t => Return t
       | Err e => Raise e 5
       end, w).
Proof.
  induction items as [ | x rest IH]; intros total w; cbn [for_each sum_from].
  - reflexivity.
  - unfold bind, at_line. destruct (py_add total x) as [t | e]; cbn [rbind].
    + apply IH.
    + reflexivity.
Qed.

Lemma calculate_average_run (numbers : ref) (w : world) :
  calculate_average numbers w = (average_outcome (list_at w numbers), w).
Proof.
  unfold calculate_average, for_in, len, bind at 1 2, get_list.
  rewrite for_each_sum. unfold average_outcome.
  destruct (sum_from (PInt 0) (list_at w numbers)) as [t | e]; [ | reflexivity].
  unfold bind, ret, at_line.
  destruct (py_truediv t (PInt (Z.of_nat (List.length (list_at w numbers)))));
    reflexivity.
Qed.

Lemma average_eq (S : list num) : average S = average_outcome S.
Proof.
  unfold average, bind, new_list. cbn [heap empty_world List.length app].
  rewrite calculate_average_run. reflexivity.
Qed.

(** The outcome depends on the elements only, not on where the list lives
    or on what else the state holds. *)
Lemma calculate_average_any_world (numbers : ref) (w : world) :
  fst (calculate_average numbers w) = average (list_at w numbers).
Proof. rewrite calculate_average_run, average_eq. reflexivity. Qed.

End Denotation.

(** C2: on the empty sequence the call raises ZeroDivisionError at the
    division of line 6, in whatever state it is made; it returns no value. *)
Theorem calculate_average_empty_raises (numbers : ref) (w : world) :
  list_at w numbers = [] ->
  calculate_average numbers w = (Raise ZeroDivisionError 6, w)
  /\ forall v, fst (calculate_average numbers w) <> Return v.
Proof.
  intros Hempty. rewrite calculate_average_run, Hempty.
  split; [reflexivity | ]. intros v. cbn. discriminate.
Qed.

Lemma calculate_average_empty_raises_witness :
  list_at (mkWorld [[]] "") 0%nat = []
  /\ calculate_average 0%nat (mkWorld [[]] "")
     = (Raise ZeroDivisionError 6, mkWorld [[]] "").
Proof.
  split; [reflexivity | ].
  apply (calculate_average_empty_raises 0%nat (mkWorld [[]] "")). reflexivity.
Defined.

(** ** The entry point *)

Section EntryPoint.

Variable py_str : num -> string.

Lemma main_on_run (display : list num) (w : world) :
  main_on py_str display w
  = match average display with
    | Return v =>
        (Return tt,
         mkWorld (heap w ++ [display])
                 (stdout w ++ ("Average: " ++ py_str v) ++ newline)%string)
    | Raise e line => (Raise e line, mkWorld (heap w ++ [display]) (stdout w))
    end.
Proof.
  unfold main_on, bind at 1 2, new_list.
  rewrite calculate_average_run, average_eq.
  unfold list_at. cbn [heap].
  rewrite app_nth2, Nat.sub_diag by apply Nat.le_refl. cbn [nth].
  destruct (average_outcome display); reflexivity.
Qed.

End EntryPoint.

(** C3: the program run end to end on its fixed empty input ends in the
    division-by-zero failure: main raises ZeroDivisionError from line 6 in
    every state, nothing in main catches it, the interpreter reports it and
    the exit status is 1, not 0. *)
Theorem program_crashes (py_str : num -> string) :
  (forall w, fst (main py_str w) = Raise ZeroDivisionError 6)
  /\ traceback (program py_str) = Some (ZeroDivisionError, 6%nat)
  /\ exit_status (program py_str) = 1
  /\ exit_status (program py_str) <> 0.
Proof.
  split.
  - intros w. unfold main. rewrite main_on_run. reflexivity.
  - unfold program, script, run. cbn [String.eqb Ascii.eqb Bool.eqb].
    unfold main. rewrite main_on_run. cbn. repeat split. discriminate.
Qed.


(** C7: when the calculator returns a value, the program writes exactly one
    line, [Average: ] followed by the rendering of that value, and ends with
    status 0. *)
Theorem main_prints_one_line
  (py_str : num -> string) (display : list num) (v : num) :
  average display = Return v ->
  written (run (main_on py_str display))
  = ("Average: " ++ py_str v ++ newline)%string
  /\ exit_status (run (main_on py_str display)) = 0.
Proof.
  intros Hv. unfold run. rewrite main_on_run, Hv. cbn. split; reflexivity.
Qed.

Lemma main_prints_one_line_witness :
  average [PInt 1; PInt 2] = Return (PFloat float_1_5)
  /\ written (run (main_on (fun _ => "1.5") [PInt 1; PInt 2]))
     = ("Average: " ++ "1.5" ++ newline)%string.
Proof.
  split; [reflexivity | ].
  apply (main_prints_one_line (fun _ => "1.5") [PInt 1; PInt 2] (PFloat float_1_5)).
  reflexivity.
Defined.

(** A loop leaves the state alone when its body does. *)
Lemma for_each_frame {A} (body : A -> num -> M A) :
  (forall acc x w, snd (body acc x w) = w) ->
  forall items acc w, snd (for_each items body acc w) = w.
Proof.
  intros Hbody items. induction items as [ | x rest IH]; intros acc w.
  - reflexivity.
  - cbn [for_each]. unfold bind.
    specialize (Hbody acc x w).
    destruct (body acc x w) as [[acc' | e line] w']; cbn [snd] in Hbody; subst w'.
    + apply IH.
    + reflexivity.
Qed.

Lemma at_line_frame {A} (line : nat) (r : result A) (w : world) :
  snd (at_line line r w) = w.
Proof. destruct r; reflexivity. Qed.

(** C8: calculate_average has no side effect: the state after the call, the
    list object it was given included, is the state before it. *)
Theorem calculate_average_pure (numbers : ref) (w : world) :
  snd (calculate_average numbers w) = w
  /\ list_at (snd (calculate_average numbers w)) numbers = list_at w numbers.
Proof.
  assert (H : snd (calculate_average numbers w) = w).
  { unfold calculate_average, for_in, len, bind at 1 2, get_list.
    pose proof (for_each_frame
                  (fun total num => at_line 5 (py_add total num))
                  (fun acc x w0 => at_line_frame 5 (py_add acc x) w0)
                  (list_at w numbers) (PInt 0) w) as Hloop.
    destruct (for_each (list_at w numbers)
                (fun total num => at_line 5 (py_add total num)) (PInt 0) w)
      as [[total | e line] w'];
      cbn [snd] in Hloop; subst w'; [ | reflexivity].
    unfold bind, ret. apply at_line_frame. }
  split; [exact H | rewrite H; reflexivity].
Qed.

(** C10: on the defect path nothing is written: main leaves standard output
    as it found it, and the program's output is empty. *)
Theorem program_prints_nothing (py_str : num -> string) :
  (forall w, stdout (snd (main py_str w)) = stdout w)
  /\ written (program py_str) = "".
Proof.
  split.
  - intros w. unfold main. rewrite main_on_run. reflexivity.
  - unfold program, script, run. cbn [String.eqb Ascii.eqb Bool.eqb].
    unfold main. rewrite main_on_run. reflexivity.
Qed.

(** ** Sequences of integers *)

Section Integers.

Lemma sum_from_ints (zs : list Z) :
  forall a, sum_from (PInt a) (map PInt zs) = Ok (PInt (a + Zsum zs)).
Proof.
  induction zs as [ | z zs IH]; intros a; cbn [map sum_from Zsum fold_right].
  - f_equal. f_equal. lia.
  - cbn [py_add rbind]. rewrite IH. fold (Zsum zs). f_equal. f_equal. lia.
Qed.

Lemma Zsum_Permutation (zs zs' : list Z) :
  Permutation zs zs' -> Zsum zs = Zsum zs'.
Proof.
  induction 1 as [ | z l l' _ IH | y z l | l l' l'' _ IH1 _ IH2];
    unfold Zsum in *; cbn [fold_right] in *; lia.
Qed.

Lemma average_ints (zs : list Z) :
  average (map PInt zs)
  = match int_truediv (Zsum zs) (Z.of_nat (List.length zs)) with
    | Ok v => Return v
    | Err e => Raise e 6
    end.
Proof.
  rewrite average_eq. unfold average_outcome.
  rewrite sum_from_ints, length_map. reflexivity.
Qed.

End Integers.

(** C4, as stated, fails: with floats the forward sum depends on the order.
    [2^53, 1.0, -2^53] averages to 0.0 (the 1.0 is absorbed), its
    permutation [2^53, -2^53, 1.0] to 1/3. *)
Lemma order_independence_fails :
  ~ (forall S P : list num, Permutation S P -> average P = average S).
Proof.
  intros H.
  specialize (H [PFloat float_2p53; PFloat float_1_0; PFloat float_neg_2p53]
                [PFloat float_2p53; PFloat float_neg_2p53; PFloat float_1_0]).
  assert (Hperm : Permutation
            [PFloat float_2p53; PFloat float_1_0; PFloat float_neg_2p53]
            [PFloat float_2p53; PFloat float_neg_2p53; PFloat float_1_0])
    by (apply perm_skip, perm_swap).
  specialize (H Hperm). vm_compute in H. discriminate H.
Qed.

(** C4, amended: for every sequence of integers and every permutation of it,
    calculate_average gives the same outcome (integer sums are exact). *)
Theorem order_independence_ints (zs zs' : list Z) :
  Permutation zs zs' ->
  average (map PInt zs') = average (map PInt zs).
Proof.
  intros Hperm. rewrite !average_ints.
  rewrite (Zsum_Permutation _ _ Hperm), (Permutation_length Hperm).
  reflexivity.
Qed.

Lemma order_independence_ints_witness :
  Permutation [3; 1; 2] [1; 2; 3]
  /\ average (map PInt [1; 2; 3]) = average (map PInt [3; 1; 2]).
Proof.
  assert (Hperm : Permutation [3; 1; 2] [1; 2; 3]).
  { apply Permutation_trans with [1; 3; 2]; [apply perm_swap | ].
    apply perm_skip, perm_swap. }
  split; [exact Hperm | ].
  apply (order_independence_ints [3; 1; 2] [1; 2; 3] Hperm).
Defined.

(** ** Which exceptions a call on a non-empty sequence can raise *)

Section Exceptions.

Lemma int_to_float_not_zero_division (z : Z) :
  int_to_float z <> Err ZeroDivisionError.
Proof.
  unfold int_to_float. destruct (Binary64.is_infinity (Binary64.of_Z z));
    discriminate.
Qed.

Lemma py_add_not_zero_division (x y : num) :
  py_add x y <> Err ZeroDivisionError.
Proof.
  destruct x as [a | fx], y as [b | fy]; cbn [py_add as_float rbind];
    try discriminate.
  - pose proof (int_to_float_not_zero_division a) as H.
    destruct (int_to_float a); cbn [rbind]; [discriminate | congruence].
  - pose proof (int_to_float_not_zero_division b) as H.
    destruct (int_to_float b); cbn [rbind]; [discriminate | congruence].
Qed.

Lemma sum_from_not_zero_division (items : list num) :
  forall total, sum_from total items <> Err ZeroDivisionError.
Proof.
  induction items as [ | x rest IH]; intros total; cbn [sum_from].
  - discriminate.
  - pose proof (py_add_not_zero_division total x) as H.
    destruct (py_add total x) as [t | e]; cbn [rbind]; [apply IH | congruence].
Qed.

(** Dividing by a positive count never divides by zero. *)
Lemma truediv_by_count_not_zero_division (total : num) (n : Z) :
  0 < n -> py_truediv total (PInt n) <> Err ZeroDivisionError.
Proof.
  intros Hn. destruct total as [a | f]; cbn [py_truediv as_float rbind].
  - unfold int_truediv. destruct (Z.eqb_spec n 0) as [E | _]; [lia | ].
    destruct (a =? 0); [discriminate | ].
    destruct (Binary64.is_infinity _); discriminate.
  - unfold int_to_float.
    destruct (Binary64.is_infinity (Binary64.of_Z n)); cbn [rbind];
      [discriminate | ].
    unfold float_truediv.
    rewrite Binary64Facts.of_Z_not_zero by lia. discriminate.
Qed.

Lemma within_bound (k a : Z) :
  0 <= k < 2 ^ 63 -> Z.abs a <= k * 2 ^ 960 -> Z.abs a < 2 ^ 1023.
Proof.
  intros Hk Ha.
  assert (Hmono : k * 2 ^ 960 <= (2 ^ 63 - 1) * 2 ^ 960).
  { apply Z.mul_le_mono_nonneg_r; [apply Z.pow_nonneg | ]; lia. }
  assert (Htop : (2 ^ 63 - 1) * 2 ^ 960 < 2 ^ 1023) by (vm_compute; reflexivity).
  apply Z.le_lt_trans with (k * 2 ^ 960); [assumption | ].
  apply Z.le_lt_trans with ((2 ^ 63 - 1) * 2 ^ 960); assumption.
Qed.

Lemma int_to_float_returns (z : Z) :
  Z.abs z < 2 ^ 1023 -> int_to_float z = Ok (Binary64.of_Z z).
Proof.
  intros Hz. unfold int_to_float.
  rewrite Binary64Facts.of_Z_not_infinity by assumption. reflexivity.
Qed.

(** The loop returns as long as the integers it meets are small. *)
Lemma sum_from_returns (items : list num) :
  forall total k,
    0 <= k ->
    k + Z.of_nat (List.length items) < 2 ^ 63 ->
    forallb (int_below (2 ^ 960)) items = true ->
    total_within k total ->
    exists total',
      sum_from total items = Ok total'
      /\ total_within (k + Z.of_nat (List.length items)) total'.
Proof.
  induction items as [ | x rest IH]; intros total k Hk Hlen Hsmall Hin.
  - exists total. split; [reflexivity | ].
    cbn [List.length Z.of_nat]. rewrite Z.add_0_r. exact Hin.
  - cbn [forallb] in Hsmall. apply andb_true_iff in Hsmall as [Hx Hrest].
    cbn [List.length] in Hlen |- *. rewrite Nat2Z.inj_succ in Hlen |- *.
    assert (Hstep : exists t, py_add total x = Ok t /\ total_within (k + 1) t).
    { destruct total as [a | f], x as [b | g];
        cbn [py_add as_float rbind total_within int_below] in *.
      - exists (PInt (a + b)). split; [reflexivity | ].
        apply Z.ltb_lt in Hx. cbn [total_within].
        rewrite Z.mul_add_distr_r, Z.mul_1_l. lia.
      - rewrite (int_to_float_returns a)
          by (apply within_bound with k; [lia | assumption]).
        cbn [rbind]. eexists. split; [reflexivity | exact I].
      - apply Z.ltb_lt in Hx.
        rewrite (int_to_float_returns b).
        + cbn [rbind]. eexists. split; [reflexivity | exact I].
        + apply Z.lt_trans with (2 ^ 960); [assumption | ].
          vm_compute; reflexivity.
      - eexists. split; [reflexivity | exact I]. }
    destruct Hstep as (t & Ht & Hwithin).
    destruct (IH t (k + 1)) as (t' & Ht' & Hwithin'); try assumption; try lia.
    exists t'. cbn [sum_from]. rewrite Ht. cbn [rbind]. split; [exact Ht' | ].
    replace (k + Z.succ (Z.of_nat (List.length rest)))
      with (k + 1 + Z.of_nat (List.length rest)) by lia.
    exact Hwithin'.
Qed.

(** The division returns when the count is an honest list length and the
    total, if an int, is small. *)
Lemma truediv_by_count_returns (total : num) (n : Z) :
  0 < n < 2 ^ 63 -> total_within n total ->
  exists v, py_truediv total (PInt n) = Ok v.
Proof.
  intros Hn Hin. destruct total as [a | f];
    cbn [py_truediv as_float rbind total_within] in *.
  - unfold int_truediv. destruct (Z.eqb_spec n 0) as [E | Hnz]; [lia | ].
    destruct (a =? 0); [eexists; reflexivity | ].
    rewrite Binary64Facts.div_Z_not_infinity;
      [eexists; reflexivity | assumption | ].
    apply within_bound with n; [lia | assumption].
  - rewrite (int_to_float_returns n).
    + cbn [rbind]. unfold float_truediv.
      rewrite Binary64Facts.of_Z_not_zero by lia. eexists; reflexivity.
    + apply Z.lt_trans with (2 ^ 63); [lia | vm_compute; reflexivity].
Qed.

End Exceptions.

(** C5, as stated, fails: a non-empty sequence does not always give a value.
    [2 ** 1024] is non-empty, and its division by 1 raises OverflowError
    (the quotient is too large for a float). *)
Lemma nonempty_may_raise :
  ~ (forall S : list num, S <> [] -> exists v, average S = Return v).
Proof.
  intros H. destruct (H [PInt (2 ^ 1024)]) as (v & Hv); [discriminate | ].
  vm_compute in Hv. discriminate Hv.
Qed.

(** C5, amended: on a non-empty sequence the divisor len(numbers) is not
    zero, so ZeroDivisionError is raised nowhere; and the call returns a
    value when moreover the sequence has fewer than 2^63 elements and its
    integers are below 2^960 in magnitude (larger integers can raise
    OverflowError). *)
Theorem nonempty_never_divides_by_zero (S : list num) :
  S <> [] ->
  (forall line, average S <> Raise ZeroDivisionError line)
  /\ (Z.of_nat (List.length S) < 2 ^ 63 ->
      forallb (int_below (2 ^ 960)) S = true ->
      exists v, average S = Return v).
Proof.
  intros Hne.
  assert (Hn : 0 < Z.of_nat (List.length S)).
  { destruct S; [contradiction | cbn [List.length]; lia]. }
  rewrite average_eq. unfold average_outcome. split.
  - intros line.
    pose proof (sum_from_not_zero_division S (PInt 0)) as Hsum.
    destruct (sum_from (PInt 0) S) as [t | e]; [ | congruence].
    pose proof (truediv_by_count_not_zero_division t _ Hn) as Hdiv.
    destruct (py_truediv t (PInt (Z.of_nat (List.length S)))); congruence.
  - intros Hlen Hsmall.
    destruct (sum_from_returns S (PInt 0) 0) as (t & Ht & Hwithin);
      try assumption; try lia.
    { cbn [total_within]. cbn. lia. }
    rewrite Ht. rewrite Z.add_0_l in Hwithin.
    destruct (truediv_by_count_returns t _ (conj Hn Hlen) Hwithin) as (v & Hv).
    rewrite Hv. exists v. reflexivity.
Qed.

Lemma nonempty_never_divides_by_zero_witness :
  [PInt 7; PFloat float_1_5] <> []
  /\ average [PInt 7; PFloat float_1_5] <> Raise ZeroDivisionError 6
  /\ exists v, average [PInt 7; PFloat float_1_5] = Return v.
Proof.
  assert (Hne : [PInt 7; PFloat float_1_5] <> []) by discriminate.
  split; [exact Hne | ]. split.
  - apply (proj1 (nonempty_never_divides_by_zero _ Hne)).
  - apply (proj2 (nonempty_never_divides_by_zero _ Hne));
      vm_compute; reflexivity.
Defined.

(** C9, as stated, fails: not every non-empty sequence of integers gives a
    float.  [2 ** 1024, 2 ** 1024] sums to 2 ** 1025, and its division by 2
    raises OverflowError (the quotient 2 ** 1024 is too large for a float). *)
Lemma ints_may_raise :
  ~ (forall zs : list Z, zs <> [] ->
       exists f, average (map PInt zs) = Return (PFloat f)).
Proof.
  intros H. destruct (H [2 ^ 1024; 2 ^ 1024]) as (f & Hf); [discriminate | ].
  vm_compute in Hf. discriminate Hf.
Qed.

(** C9, amended: for every non-empty sequence of integers whose sum is below
    2^1023 in magnitude, calculate_average returns a float and never an int,
    also when the count divides the sum: calculate_average([2, 4, 6]) is
    the float 4.0, which denotes 4 and is not the int 4. *)
Theorem average_of_ints_is_float (zs : list Z) :
  zs <> [] ->
  Z.abs (Zsum zs) < 2 ^ 1023 ->
  (exists f, average (map PInt zs) = Return (PFloat f))
  /\ (forall z, average (map PInt zs) <> Return (PInt z))
  /\ average (map PInt [2; 4; 6]) = Return (PFloat float_4_0)
  /\ option_map Qred (Binary64.to_Q float_4_0) = Some (4 # 1)%Q
  /\ PFloat float_4_0 <> PInt 4.
Proof.
  intros Hne Hsum.
  assert (Hf : exists f, average (map PInt zs) = Return (PFloat f)).
  { rewrite average_ints. unfold int_truediv.
    destruct (Z.eqb_spec (Z.of_nat (List.length zs)) 0) as [E | Hnz].
    { destruct zs; [contradiction | cbn [List.length] in E; lia]. }
    destruct (Zsum zs =? 0); [eexists; reflexivity | ].
    rewrite Binary64Facts.div_Z_not_infinity by assumption.
    eexists; reflexivity. }
  split; [exact Hf | ]. split.
  - intros z. destruct Hf as (f & ->). discriminate.
  - repeat split; try reflexivity. discriminate.
Qed.

Lemma average_of_ints_is_float_witness :
  [2; 4; 6] <> []
  /\ Z.abs (Zsum [2; 4; 6]) < 2 ^ 1023
  /\ exists f, average (map PInt [2; 4; 6]) = Return (PFloat f).
Proof.
  assert (Hne : [2; 4; 6] <> []) by discriminate.
  assert (Hsum : Z.abs (Zsum [2; 4; 6]) < 2 ^ 1023) by (vm_compute; reflexivity).
  split; [exact Hne | ]. split; [exact Hsum | ].
  apply (proj1 (average_of_ints_is_float [2; 4; 6] Hne Hsum)).
Defined.

(** ** Further properties of the script *)

(** *** The module guard *)

(** X1: the guard of the last two lines runs main only under the name
    [__main__]: loaded under any other name the module does nothing (no
    exception, no output, no new object), and the run ends with status 0;
    so the script fails exactly when it is run as the main module. *)
Theorem script_guard (py_str : num -> string) (name : string) (w : world) :
  name <> "__main__" ->
  script py_str name w = (Return tt, w)
  /\ run (script py_str name) = mkProcess 0 "" None
  /\ (forall name', fst (script py_str name' w) = Raise ZeroDivisionError 6
                    <-> name' = "__main__").
Proof.
  intros Hname.
  assert (Hoff : forall n, n <> "__main__" -> script py_str n = ret tt).
  { intros n Hn. unfold script. apply String.eqb_neq in Hn. rewrite Hn.
    reflexivity. }
  split; [rewrite (Hoff name Hname); reflexivity | ].
  split; [rewrite (Hoff name Hname); reflexivity | ].
  intros name'. split.
  - intros Hraise. destruct (String.eqb_spec name' "__main__") as [E | Hne];
      [exact E | ].
    rewrite (Hoff name' Hne) in Hraise. discriminate Hraise.
  - intros ->. unfold script. rewrite String.eqb_refl.
    unfold main. rewrite main_on_run. reflexivity.
Qed.

Lemma script_guard_witness :
  "buggy" <> "__main__"
  /\ script (fun _ => "") "buggy" empty_world = (Return tt, empty_world).
Proof.
  assert (Hname : "buggy" <> "__main__") by discriminate.
  split; [exact Hname | ].
  apply (script_guard (fun _ => "") "buggy" empty_world Hname).
Defined.

(** *** The entry point on a failing call *)

(** X2: main has no handler: whatever exception the calculator raises on
    the list main builds, the run prints nothing, reports that exception
    with the calculator's line, and ends with status 1. *)
Theorem main_propagates
  (py_str : num -> string) (display : list num) (e : exc) (line : nat) :
  average display = Raise e line ->
  run (main_on py_str display) = mkProcess 1 "" (Some (e, line)).
Proof.
  intros Hraise. unfold run. rewrite main_on_run, Hraise. reflexivity.
Qed.

Lemma main_propagates_witness :
  average [PInt (2 ^ 1024)] = Raise OverflowError 6
  /\ run (main_on (fun _ => "") [PInt (2 ^ 1024)])
     = mkProcess 1 "" (Some (OverflowError, 6%nat)).
Proof.
  assert (Hraise : average [PInt (2 ^ 1024)] = Raise OverflowError 6)
    by (vm_compute; reflexivity).
  split; [exact Hraise | ].
  apply (main_propagates (fun _ => "") [PInt (2 ^ 1024)] OverflowError 6 Hraise).
Defined.

(** *** Sequences of floats *)

Section Floats.

Lemma sum_from_floats (fs : list spec_float) :
  forall t,
    sum_from (PFloat t) (map PFloat fs)
    = Ok (PFloat (fold_left Binary64.add fs t)).
Proof.
  induction fs as [ | f fs IH]; intros t; cbn [map sum_from fold_left].
  - reflexivity.
  - cbn [py_add as_float rbind]. apply IH.
Qed.

Lemma average_outcome_floats (fs : list spec_float) :
  fs <> [] ->
  Z.of_nat (List.length fs) < 2 ^ 63 ->
  average_outcome (map PFloat fs)
  = Return (PFloat (Binary64.div
                      (fold_left Binary64.add fs (S754_zero false))
                      (Binary64.of_Z (Z.of_nat (List.length fs))))).
Proof.
  intros Hne Hlen. destruct fs as [ | f fs]; [contradiction | ].
  unfold average_outcome. rewrite length_map.
  set (n := Z.of_nat (List.length (f :: fs))) in *.
  assert (Hn : 0 < n) by (subst n; cbn [List.length]; lia).
  cbn [map sum_from].
  change (py_add (PInt 0) (PFloat f))
    with (Ok (PFloat (Binary64.add (S754_zero false) f))).
  cbn [rbind]. rewrite sum_from_floats.
  cbn [py_truediv as_float rbind].
  rewrite int_to_float_returns
    by (apply Z.lt_trans with (2 ^ 63); [lia | vm_compute; reflexivity]).
  cbn [rbind]. unfold float_truediv.
  rewrite Binary64Facts.of_Z_not_zero by lia. reflexivity.
Qed.

Lemma add_nan_r (t : spec_float) : Binary64.add t S754_nan = S754_nan.
Proof. destruct t; reflexivity. Qed.

Lemma fold_add_nan (fs : list spec_float) :
  fold_left Binary64.add fs S754_nan = S754_nan.
Proof. induction fs as [ | f fs IH]; [reflexivity | exact IH]. Qed.

Lemma fold_add_In_nan (fs : list spec_float) :
  In S754_nan fs ->
  forall t, fold_left Binary64.add fs t = S754_nan.
Proof.
  induction fs as [ | f fs IH]; intros Hin t; [contradiction | ].
  cbn [fold_left]. destruct Hin as [-> | Hin].
  - rewrite add_nan_r. apply fold_add_nan.
  - apply IH. exact Hin.
Qed.

End Floats.

(** X3: on a non-empty sequence of floats (of a length a list can have)
    calculate_average raises nothing: it returns the binary64 quotient of
    the left-to-right binary64 sum, started from +0.0, by the count
    converted to float; overflow shows as an infinity or a nan in the value,
    not as an exception. *)
Theorem average_of_floats (fs : list spec_float) :
  fs <> [] ->
  Z.of_nat (List.length fs) < 2 ^ 63 ->
  average (map PFloat fs)
  = Return (PFloat (Binary64.div
                      (fold_left Binary64.add fs (S754_zero false))
                      (Binary64.of_Z (Z.of_nat (List.length fs))))).
Proof.
  intros Hne Hlen. rewrite average_eq.
  apply average_outcome_floats; assumption.
Qed.

Lemma average_of_floats_witness :
  [float_1_0; float_1_5] <> []
  /\ Z.of_nat (List.length [float_1_0; float_1_5]) < 2 ^ 63
  /\ average (map PFloat [float_1_0; float_1_5])
     = Return (PFloat (Binary64.div
                         (fold_left Binary64.add [float_1_0; float_1_5]
                                    (S754_zero false))
                         (Binary64.of_Z 2))).
Proof.
  assert (Hne : [float_1_0; float_1_5] <> []) by discriminate.
  assert (Hlen : Z.of_nat (List.length [float_1_0; float_1_5]) < 2 ^ 63)
    by (vm_compute; reflexivity).
  split; [exact Hne | ]. split; [exact Hlen | ].
  apply (average_of_floats [float_1_0; float_1_5] Hne Hlen).
Defined.

(** X4: a nan among the elements of a sequence of floats makes the result
    nan, wherever it stands: the call returns nan and raises nothing. *)
Theorem average_with_nan (fs : list spec_float) :
  In S754_nan fs ->
  Z.of_nat (List.length fs) < 2 ^ 63 ->
  average (map PFloat fs) = Return (PFloat S754_nan).
Proof.
  intros Hin Hlen. rewrite average_eq.
  rewrite average_outcome_floats;
    [ | intros ->; contradiction | assumption].
  rewrite (fold_add_In_nan fs Hin). reflexivity.
Qed.

Lemma average_with_nan_witness :
  In S754_nan [float_1_0; S754_nan; float_1_5]
  /\ average (map PFloat [float_1_0; S754_nan; float_1_5])
     = Return (PFloat S754_nan).
Proof.
  assert (Hin : In S754_nan [float_1_0; S754_nan; float_1_5])
    by (right; left; reflexivity).
  split; [exact Hin | ].
  apply (average_with_nan [float_1_0; S754_nan; float_1_5] Hin).
  vm_compute; reflexivity.
Defined.

(** *** Sequences of integers: one rounding *)

(** X5: on a sequence of integers the additions are exact and raise
    nothing, so the call is the single true division of the exact sum by the
    count: any exception comes from line 6, two sequences with the same sum
    and the same length have the same outcome, and the outcome is
    ZeroDivisionError exactly for the empty sequence. *)
Theorem average_of_ints_exact_sum (zs : list Z) :
  average (map PInt zs)
  = match int_truediv (Zsum zs) (Z.of_nat (List.length zs)) with
    | Ok v => Return v
    | Err e => Raise e 6
    end
  /\ (forall e line, average (map PInt zs) = Raise e line -> line = 6%nat)
  /\ (forall zs', Zsum zs' = Zsum zs -> List.length zs' = List.length zs ->
                  average (map PInt zs') = average (map PInt zs))
  /\ (average (map PInt zs) = Raise ZeroDivisionError 6 <-> zs = []).
Proof.
  split; [apply average_ints | ]. split; [ | split].
  - intros e line. rewrite average_ints.
    destruct (int_truediv (Zsum zs) (Z.of_nat (List.length zs)));
      intros [= ]; congruence.
  - intros zs' Hsum Hlen. rewrite !average_ints, Hsum, Hlen. reflexivity.
  - rewrite average_ints. split.
    + destruct zs as [ | z zs]; [reflexivity | ]. unfold int_truediv.
      destruct (Z.eqb_spec (Z.of_nat (List.length (z :: zs))) 0) as [E | _];
        [cbn [List.length] in E; lia | ].
      destruct (Zsum (z :: zs) =? 0); [discriminate | ].
      destruct (Binary64.is_infinity _); discriminate.
    + intros ->. reflexivity.
Qed.

(** *** Values that need no rounding *)

Module Binary64Exact.
Import Binary64 Binary64Facts.

(** A mantissa already at the format's exponent is kept as it is. *)
Lemma binary_round_aux_exact_0 (s : bool) (mx ex : Z) :
  0 < mx ->
  Z.max (Zdigits2 mx + ex - 53) (-1074) = ex ->
  ex <= 971 ->
  binary_round_aux prec emax s mx ex loc_Exact
  = S754_finite s (Z.to_pos mx) ex.
Proof.
  intros Hm Hcanon He. unfold binary_round_aux, shr_fexp.
  rewrite fexp_eq, Hcanon, Z.sub_diag.
  cbn [shr shr_record_of_loc shr_m loc_of_shr_record round_nearest_even].
  rewrite fexp_eq, Hcanon, Z.sub_diag. cbn [shr shr_record_of_loc shr_m].
  destruct mx as [ | p | p]; try lia.
  replace (emax - prec) with 971 by reflexivity.
  destruct (Z.leb_spec ex 971); [reflexivity | lia].
Qed.

(** A mantissa one bit too long whose last bit is 0 loses that bit, and
    nothing else. *)
Lemma binary_round_aux_exact_1 (s : bool) (m ex : Z) :
  0 < m ->
  Z.max (Zdigits2 (2 * m) + ex - 53) (-1074) = ex + 1 ->
  ex + 1 <= 971 ->
  binary_round_aux prec emax s (2 * m) ex loc_Exact
  = S754_finite s (Z.to_pos m) (ex + 1).
Proof.
  intros Hm Hcanon He. destruct m as [ | p | p]; try lia.
  change (2 * Z.pos p) with (Z.pos p~0) in *.
  unfold binary_round_aux, shr_fexp. rewrite fexp_eq, Hcanon.
  replace (ex + 1 - ex) with 1 by lia.
  cbn [shr shr_record_of_loc iter_pos shr_1 shr_m loc_of_shr_record
       round_nearest_even orb].
  assert (Hcanon' : Z.max (Zdigits2 (Z.pos p) + (ex + 1) - 53) (-1074) = ex + 1).
  { cbn [Zdigits2 digits2_pos] in Hcanon |- *.
    rewrite Pos2Z.inj_succ in Hcanon. lia. }
  rewrite fexp_eq, Hcanon', Z.sub_diag. cbn [shr shr_record_of_loc shr_m].
  replace (emax - prec) with 971 by reflexivity.
  destruct (Z.leb_spec (ex + 1) 971); [reflexivity | lia].
Qed.

Lemma Zdigits2_gt (m k : Z) : 0 <= k -> 2 ^ k <= m -> k < Zdigits2 m.
Proof.
  intros Hk Hle.
  assert (Hm : 0 < m).
  { apply Z.lt_le_trans with (2 ^ k); [apply Z.pow_pos_nonneg; lia | assumption]. }
  assert (Hb := Zdigits2_bounds m Hm).
  assert (Hlt : 2 ^ k < 2 ^ Zdigits2 m) by lia.
  apply Z.pow_lt_mono_r_iff in Hlt; [assumption | lia | apply Zdigits2_nonneg].
Qed.

Lemma Zdigits2_unique (m d : Z) :
  0 < d -> 2 ^ (d - 1) <= m < 2 ^ d -> Zdigits2 m = d.
Proof.
  intros Hd [Hlo Hhi].
  assert (Hm : 0 < m).
  { apply Z.lt_le_trans with (2 ^ (d - 1)); [apply Z.pow_pos_nonneg; lia | assumption]. }
  assert (Zdigits2 m <= d) by (apply Zdigits2_le; lia).
  assert (d - 1 < Zdigits2 m) by (apply Zdigits2_gt; lia).
  lia.
Qed.

Lemma Zdigits2_mul_pow2 (m k : Z) :
  0 < m -> 0 <= k -> Zdigits2 (m * 2 ^ k) = Zdigits2 m + k.
Proof.
  intros Hm Hk.
  assert (Hb := Zdigits2_bounds m Hm).
  assert (Hd := Zdigits2_pos m Hm).
  assert (Hp : 0 < 2 ^ k) by (apply Z.pow_pos_nonneg; lia).
  apply Zdigits2_unique; [lia | ].
  replace (Zdigits2 m + k - 1) with (Zdigits2 m - 1 + k) by lia.
  rewrite !Z.pow_add_r by lia. nia.
Qed.

(** The bit length of a product is the sum of the bit lengths, or one less. *)
Lemma Zdigits2_mul (a b : Z) :
  0 < a -> 0 < b ->
  Zdigits2 a + Zdigits2 b - 1 <= Zdigits2 (a * b) <= Zdigits2 a + Zdigits2 b.
Proof.
  intros Ha Hb.
  assert (Hba := Zdigits2_bounds a Ha). assert (Hda := Zdigits2_pos a Ha).
  assert (Hbb := Zdigits2_bounds b Hb). assert (Hdb := Zdigits2_pos b Hb).
  assert (Hpa : 0 < 2 ^ (Zdigits2 a - 1)) by (apply Z.pow_pos_nonneg; lia).
  assert (Hpb : 0 < 2 ^ (Zdigits2 b - 1)) by (apply Z.pow_pos_nonneg; lia).
  split.
  - assert (Zdigits2 a - 1 + (Zdigits2 b - 1) < Zdigits2 (a * b)); [ | lia].
    apply Zdigits2_gt; [lia | ]. rewrite Z.pow_add_r by lia. nia.
  - apply Zdigits2_le; [nia | lia | ]. rewrite Z.pow_add_r by lia. nia.
Qed.

Lemma div_eucl_exact (q b : Z) : 0 < b -> Z.div_eucl (q * b) b = (q, 0).
Proof.
  intros Hb.
  assert (Hq : q * b / b = q) by (apply Z.div_mul; lia).
  assert (Hr : (q * b) mod b = 0) by (apply Z.mod_mul; lia).
  unfold Z.div, Z.modulo in Hq, Hr.
  destruct (Z.div_eucl (q * b) b) as [q0 r0]. congruence.
Qed.

Lemma new_location_exact (b : Z) : new_location b 0 = loc_Exact.
Proof.
  unfold new_location, new_location_even, new_location_odd.
  destruct (Z.even b); reflexivity.
Qed.

(** The rounded quotient of [q * b] by [b] is [q] itself when [q] has at
    most 53 bits. *)
Lemma div_Z_exact (s : bool) (q b : Z) :
  0 < b -> q <> 0 -> Z.abs q < 2 ^ 53 ->
  div_Z s (q * b) b
  = S754_finite s (Z.to_pos (Z.abs q * 2 ^ (53 - Zdigits2 (Z.abs q))))
                (Zdigits2 (Z.abs q) - 53).
Proof.
  intros Hb Hq Hsmall. unfold div_Z, SFdiv_core_binary. rewrite fexp_eq.
  rewrite Z.abs_mul, (Z.abs_eq b) by lia.
  set (Q := Z.abs q) in *. assert (HQ : 0 < Q) by (subst Q; lia).
  assert (Hdq : Zdigits2 Q <= 53) by (apply Zdigits2_le; lia).
  assert (Hdq' := Zdigits2_pos Q HQ).
  assert (Hd2 := Zdigits2_pos b Hb).
  assert (Hd1 := Zdigits2_mul Q b HQ Hb).
  set (dq := Zdigits2 Q) in *. set (d2 := Zdigits2 b) in *.
  set (d1 := Zdigits2 (Q * b)) in *.
  replace (Z.min (Z.max (d1 + 0 - (d2 + 0) - 53) (-1074)) (0 - 0))
    with (d1 - d2 - 53) by lia.
  set (e' := d1 - d2 - 53).
  assert (Hm' : match 0 - 0 - e' with
                | 0 => Q * b
                | Z.pos _ => Z.shiftl (Q * b) (0 - 0 - e')
                | Z.neg _ => 0
                end = Q * 2 ^ (- e') * b).
  { destruct (0 - 0 - e') as [ | k | k] eqn:Hk.
    - replace (- e') with 0 by lia. rewrite Z.pow_0_r. lia.
    - rewrite Z.shiftl_mul_pow2 by lia. replace (- e') with (Z.pos k) by lia. lia.
    - lia. }
  rewrite Hm', div_eucl_exact, new_location_exact by assumption.
  assert (Hdig : Zdigits2 (Q * 2 ^ (- e')) = dq - e')
    by (rewrite Zdigits2_mul_pow2 by lia; fold dq; lia).
  assert (Hpos : 0 < Q * 2 ^ (53 - dq)).
  { apply Z.mul_pos_pos; [assumption | apply Z.pow_pos_nonneg; lia]. }
  destruct (Z.eq_dec d1 (dq + d2)) as [E | E].
  - replace (- e') with (53 - dq) in * by lia.
    rewrite binary_round_aux_exact_0; [f_equal; lia | assumption | lia | lia].
  - replace (- e') with (1 + (53 - dq)) in * by lia.
    rewrite Z.pow_add_r in * by lia. change (2 ^ 1) with 2 in *.
    replace (Q * (2 * 2 ^ (53 - dq))) with (2 * (Q * 2 ^ (53 - dq))) in * by lia.
    rewrite binary_round_aux_exact_1; [f_equal; lia | assumption | lia | lia].
Qed.

End Binary64Exact.

(** *** Integer means *)

Section IntegerMeans.

Lemma scaled_back (m k : Z) :
  0 <= k -> (inject_Z (m * 2 ^ k) * Qpower 2 (- k) == inject_Z m)%Q.
Proof.
  intros Hk. rewrite Qpower_opp, inject_Z_mult.
  change 2%Q with (inject_Z 2). rewrite <- Zpower_Qpower by assumption.
  assert (Hnz : ~ (inject_Z (2 ^ k) == 0)%Q).
  { unfold Qeq. cbn. assert (0 < 2 ^ k) by (apply Z.pow_pos_nonneg; lia). lia. }
  field. exact Hnz.
Qed.

(** [float_of_small_int q] denotes [q]. *)
Lemma float_of_small_int_value (q : Z) :
  Z.abs q < 2 ^ 53 ->
  exists r, Binary64.to_Q (float_of_small_int q) = Some r
            /\ (r == inject_Z q)%Q.
Proof.
  intros Hsmall. destruct (Z.eq_dec q 0) as [-> | Hq].
  - exists 0%Q. split; reflexivity.
  - assert (HQ : 0 < Z.abs q) by lia.
    assert (Hd : Zdigits2 (Z.abs q) <= 53)
      by (apply Binary64Facts.Zdigits2_le; lia).
    assert (Hpos : 0 < Z.abs q * 2 ^ (53 - Zdigits2 (Z.abs q))).
    { apply Z.mul_pos_pos; [assumption | apply Z.pow_pos_nonneg; lia]. }
    assert (Hv : (inject_Z (Z.pos (Z.to_pos
                     (Z.abs q * 2 ^ (53 - Zdigits2 (Z.abs q)))))
                  * Qpower 2 (Zdigits2 (Z.abs q) - 53)
                  == inject_Z (Z.abs q))%Q).
    { rewrite Z2Pos.id by assumption.
      replace (Zdigits2 (Z.abs q) - 53) with (- (53 - Zdigits2 (Z.abs q))) by lia.
      apply scaled_back. lia. }
    destruct q as [ | p | p]; [contradiction | | ]; cbn [float_of_small_int].
    + eexists. split; [reflexivity | ]. cbn [Z.ltb Z.compare]. exact Hv.
    + eexists. split; [reflexivity | ]. cbn [Z.ltb Z.compare].
      rewrite Hv. reflexivity.
Qed.

End IntegerMeans.

(** X6: when the count divides the sum of a non-empty sequence of integers
    and the quotient has at most 53 bits, calculate_average returns that
    quotient exactly, as a float: no rounding, no exception, whatever the
    size of the elements and of the sum. *)
Theorem average_exact_quotient (zs : list Z) (q : Z) :
  zs <> [] ->
  Zsum zs = q * Z.of_nat (List.length zs) ->
  Z.abs q < 2 ^ 53 ->
  average (map PInt zs) = Return (PFloat (float_of_small_int q))
  /\ exists r, Binary64.to_Q (float_of_small_int q) = Some r
               /\ (r == inject_Z q)%Q.
Proof.
  intros Hne Hsum Hsmall. split; [ | apply float_of_small_int_value; assumption].
  assert (Hn : 0 < Z.of_nat (List.length zs)).
  { destruct zs; [contradiction | cbn [List.length]; lia]. }
  rewrite average_ints, Hsum. unfold int_truediv.
  set (n := Z.of_nat (List.length zs)) in *.
  destruct (Z.eqb_spec n 0) as [E | _]; [lia | ].
  destruct (Z.eqb_spec (q * n) 0) as [E | Hnz].
  - assert (q = 0) by nia. subst q. rewrite Z.mul_0_l.
    replace (n <? 0) with false by (symmetry; apply Z.ltb_ge; lia).
    reflexivity.
  - assert (Hq : q <> 0) by (intros ->; lia).
    rewrite Binary64Exact.div_Z_exact by assumption.
    cbn [Binary64.is_infinity].
    replace (n <? 0) with false by (symmetry; apply Z.ltb_ge; lia).
    rewrite xorb_false_r.
    replace (q * n <? 0) with (q <? 0).
    + destruct q; [contradiction | reflexivity | reflexivity].
    + destruct (Z.ltb_spec q 0), (Z.ltb_spec (q * n) 0); try reflexivity; nia.
Qed.

Lemma average_exact_quotient_witness :
  [2; 4; 6] <> []
  /\ Zsum [2; 4; 6] = 4 * Z.of_nat (List.length [2; 4; 6])
  /\ Z.abs 4 < 2 ^ 53
  /\ average (map PInt [2; 4; 6]) = Return (PFloat (float_of_small_int 4)).
Proof.
  assert (Hne : [2; 4; 6] <> []) by discriminate.
  assert (Hsum : Zsum [2; 4; 6] = 4 * Z.of_nat (List.length [2; 4; 6]))
    by reflexivity.
  assert (Hsmall : Z.abs 4 < 2 ^ 53) by reflexivity.
  split; [exact Hne | ]. split; [exact Hsum | ]. split; [exact Hsmall | ].
  apply (average_exact_quotient [2; 4; 6] 4 Hne Hsum Hsmall).
Defined.

(** *** A single float *)

Section SingleFloat.

Import Binary64 Binary64Facts Binary64Exact.

Lemma div_core_by_one (m : positive) (e : Z) :
  Z.max (Zdigits2 (Z.pos m) + e - 53) (-1074) = e ->
  SFdiv_core_binary prec emax (Z.pos m) e (Z.pos 4503599627370496) (-52)
  = if e =? -1074 then (Z.pos m, e, loc_Exact)
    else (2 * Z.pos m, e - 1, loc_Exact).
Proof.
  intros Hcanon. unfold SFdiv_core_binary. rewrite fexp_eq.
  change (Zdigits2 (Z.pos 4503599627370496)) with 53.
  change (Z.pos 4503599627370496) with (2 ^ 52).
  assert (Hpow : 0 < 2 ^ 52) by reflexivity.
  destruct (Z.eqb_spec e (-1074)) as [E | Hne].
  - replace (Z.min (Z.max (Zdigits2 (Z.pos m) + e - (53 + -52) - 53) (-1074))
                   (e - -52)) with e by lia.
    replace (e - -52 - e) with 52 by lia.
    rewrite Z.shiftl_mul_pow2 by lia.
    rewrite div_eucl_exact, new_location_exact by assumption. reflexivity.
  - replace (Z.min (Z.max (Zdigits2 (Z.pos m) + e - (53 + -52) - 53) (-1074))
                   (e - -52)) with (e - 1) by lia.
    replace (e - -52 - (e - 1)) with 53 by lia.
    rewrite Z.shiftl_mul_pow2 by lia.
    replace (Z.pos m * 2 ^ 53) with (2 * Z.pos m * 2 ^ 52)
      by (change (2 ^ 53) with (2 * 2 ^ 52); lia).
    rewrite div_eucl_exact, new_location_exact by assumption. reflexivity.
Qed.

(** Dividing a float by 1.0 gives it back. *)
Lemma div_by_one (x : spec_float) :
  valid_binary prec emax x = true -> div x float_1_0 = x.
Proof.
  intros Hvalid. destruct x as [s | s | | s m e]; try (destruct s; reflexivity).
  - reflexivity.
  - cbn [valid_binary] in Hvalid. unfold bounded, canonical_mantissa in Hvalid.
    apply andb_true_iff in Hvalid as [Hcanon Hbound].
    apply Z.eqb_eq in Hcanon. apply Z.leb_le in Hbound.
    rewrite fexp_eq in Hcanon.
    replace (emax - prec) with 971 in Hbound by reflexivity.
    unfold div, SFdiv, float_1_0.
    rewrite div_core_by_one by exact Hcanon. rewrite xorb_false_r.
    destruct (Z.eqb_spec e (-1074)) as [E | Hne].
    + rewrite binary_round_aux_exact_0; [reflexivity | lia | exact Hcanon | lia].
    + rewrite binary_round_aux_exact_1.
      * f_equal. lia.
      * lia.
      * change (2 * Z.pos m) with (Z.pos m~0).
        cbn [Zdigits2 digits2_pos] in Hcanon |- *.
        rewrite Pos2Z.inj_succ. lia.
      * lia.
Qed.

End SingleFloat.

(** X7: the average of a one-element sequence holding a float is that
    float itself, for every binary64 value (finite, infinite or nan) but
    the negative zero, which the sum from the int 0 turns into +0.0. *)
Theorem average_single_float (x : spec_float) :
  valid_binary Binary64.prec Binary64.emax x = true ->
  x <> S754_zero true ->
  average [PFloat x] = Return (PFloat x)
  /\ average [PFloat (S754_zero true)] = Return (PFloat (S754_zero false)).
Proof.
  intros Hvalid Hnz. split; [ | reflexivity].
  rewrite average_eq. unfold average_outcome. cbn [sum_from List.length].
  change (py_add (PInt 0) (PFloat x))
    with (Ok (PFloat (Binary64.add (S754_zero false) x))).
  cbn [rbind].
  assert (Hadd : Binary64.add (S754_zero false) x = x).
  { destruct x as [[ | ] | s | | s m e]; try reflexivity. contradiction. }
  rewrite Hadd.
  change (py_truediv (PFloat x) (PInt (Z.of_nat 1)))
    with (float_truediv x float_1_0).
  unfold float_truediv. cbn [Binary64.is_zero float_1_0].
  fold float_1_0. rewrite div_by_one by assumption. reflexivity.
Qed.

Lemma average_single_float_witness :
  valid_binary Binary64.prec Binary64.emax float_1_5 = true
  /\ float_1_5 <> S754_zero true
  /\ average [PFloat float_1_5] = Return (PFloat float_1_5).
Proof.
  assert (Hvalid : valid_binary Binary64.prec Binary64.emax float_1_5 = true)
    by reflexivity.
  assert (Hnz : float_1_5 <> S754_zero true) by discriminate.
  split; [exact Hvalid | ]. split; [exact Hnz | ].
  apply (average_single_float float_1_5 Hvalid Hnz).
Defined.

(** *** Integers followed by floats *)

Lemma sum_from_concat (l1 l2 : list num) :
  forall total,
    sum_from total (l1 ++ l2)
    = rbind (sum_from total l1) (fun t => sum_from t l2).
Proof.
  induction l1 as [ | x l1 IH]; intros total; cbn [app sum_from rbind].
  - reflexivity.
  - destruct (py_add total x) as [t | e]; cbn [rbind]; [apply IH | reflexivity].
Qed.

(** X8: on integers followed by at least one float, the integers are summed
    exactly and converted to float once, as a whole, when the first float
    is added: if that sum is too large for a float the call raises
    OverflowError from line 5 (the addition), and otherwise it returns the
    binary64 quotient of the float sum continued from the converted integer
    sum by the count. *)
Theorem average_ints_then_floats
  (zs : list Z) (f : spec_float) (fs : list spec_float) :
  Z.of_nat (List.length (map PInt zs ++ map PFloat (f :: fs))) < 2 ^ 63 ->
  average (map PInt zs ++ map PFloat (f :: fs))
  = match int_to_float (Zsum zs) with
    | Err e => Raise e 5
    | Ok t =>
        Return (PFloat (Binary64.div
                  (fold_left Binary64.add (f :: fs) t)
                  (Binary64.of_Z
                     (Z.of_nat (List.length (map PInt zs ++ map PFloat (f :: fs)))))))
    end.
Proof.
  intros Hlen. rewrite average_eq. unfold average_outcome.
  set (n := Z.of_nat (List.length (map PInt zs ++ map PFloat (f :: fs)))) in *.
  assert (Hn : 0 < n).
  { subst n. rewrite length_app. cbn [map List.length]. lia. }
  rewrite sum_from_concat, sum_from_ints. cbn [rbind map sum_from].
  rewrite Z.add_0_l. cbn [py_add as_float].
  destruct (int_to_float (Zsum zs)) as [t | e]; cbn [rbind]; [ | reflexivity].
  rewrite sum_from_floats. cbn [py_truediv as_float rbind fold_left].
  rewrite int_to_float_returns
    by (apply Z.lt_trans with (2 ^ 63); [lia | vm_compute; reflexivity]).
  cbn [rbind]. unfold float_truediv.
  rewrite Binary64Facts.of_Z_not_zero by lia. reflexivity.
Qed.

Lemma average_ints_then_floats_witness :
  Z.of_nat (List.length (map PInt [2 ^ 1024] ++ map PFloat [float_1_0])) < 2 ^ 63
  /\ average (map PInt [2 ^ 1024] ++ map PFloat [float_1_0])
     = Raise OverflowError 5.
Proof.
  assert (Hlen : Z.of_nat (List.length (map PInt [2 ^ 1024] ++ map PFloat [float_1_0]))
                 < 2 ^ 63) by (vm_compute; reflexivity).
  split; [exact Hlen | ].
  rewrite (average_ints_then_floats [2 ^ 1024] float_1_0 [] Hlen).
  vm_compute. reflexivity.
Defined.

(** *** Rounding to nearest *)

Module Binary64Rounding.
Import Binary64 Binary64Facts Binary64Exact.









End Binary64Rounding.

(** *** The mean of integers, as a rational *)

Section RationalMean.

Local Open Scope Q_scope.







(** The exact sum does not depend on the order of the elements. *)
Lemma exact_sum_Permutation (S P : list num) :
  Permutation S P ->
  forall t, exact_sum S = Some t ->
            exists t', exact_sum P = Some t' /\ t == t'.
Proof.
  induction 1 as [ | x l l' _ IH | x y l | l l' l'' _ IH1 _ IH2];
    intros t Ht; cbn [exact_sum] in *.
  - exists t. split; [assumption | reflexivity].
  - destruct (num_value x) as [v | ]; [ | discriminate].
    destruct (exact_sum l) as [u | ]; [ | discriminate].
    injection Ht as <-. destruct (IH u eq_refl) as (u' & -> & Hu).
    exists (v + u'). split; [reflexivity | rewrite Hu; reflexivity].
  - destruct (num_value y) as [vy | ]; [ | discriminate].
    destruct (num_value x) as [vx | ]; [ | discriminate].
    destruct (exact_sum l) as [u | ]; [ | discriminate].
    injection Ht as <-. exists (vx + (vy + u)). split; [reflexivity | ring].
  - destruct (IH1 t Ht) as (t1 & Ht1 & E1).
    destruct (IH2 t1 Ht1) as (t2 & Ht2 & E2).
    exists t2. split; [assumption | rewrite E1; assumption].
Qed.

End RationalMean.

(** *** The call against the exact mean *)

Section ExactMean.




End ExactMean.



